(** * The PDF text-extraction tool of the financial document analyser

    A shallow embedding of [FinancialDocumentTool.read_data_tool]
    (src/tools.py) and the properties of its report.

    Python values are modelled as follows.
    - A [str] is a list of Unicode code points.
    - A call that may raise ends in an [outcome]: the value returned or
      the exception raised, which carries the text [str(e)] gives for it
      and whether it is an instance of [Exception].
    - A computation is its outcome together with the calls it made to the
      operating system and to pypdf.
    - The file system and the pypdf library are an explicit environment
      passed to the tool. *)

From Stdlib Require Import List Arith NArith Lia Bool String Ascii.
From Stdlib Require Import Numbers.DecimalString.
From Stdlib Require Numbers.DecimalNat.
From Stdlib Require Import Sorting.Sorted.
From Equations Require Import Equations.
From Equations.Prop Require Import Logic.
Import ListNotations.

Set Default Goal Selector "!".

(** ** Python strings *)

Module PyStr.

(** A character is its code point; a [str] is a sequence of them. *)
Abbreviation char := N (only parsing).
Abbreviation str := (list N) (only parsing).

(** A literal of the source, written as a Rocq string of ASCII characters. *)
Definition lit (s : string) : str := map N_of_ascii (list_ascii_of_string s).

(** The newline character of the escapes in the source's literals. *)
Definition nl : char := 10%N.

(** [str(n)] for a non-negative [int], as an f-string field renders it. *)
Definition str_of_nat (n : nat) : str :=
  lit (NilZero.string_of_uint (Nat.to_uint n)).

(** [c.isspace()]: the characters [str.strip()] removes when it is called
    without an argument (Unicode white space, with the four ASCII
    separators 0x1C to 0x1F that CPython counts in). *)
Definition isspace (c : char) : bool :=
  ((9 <=? c) && (c <=? 13) || (28 <=? c) && (c <=? 32)
   || (c =? 133) || (c =? 160) || (c =? 5760)
   || (8192 <=? c) && (c <=? 8202)
   || (c =? 8232) || (c =? 8233) || (c =? 8239) || (c =? 8287)
   || (c =? 12288))%N.

Fixpoint lstrip (s : str) : str :=
  match s with
  | c :: s' => if isspace c then lstrip s' else s
  | [] => []
  end.

Definition rstrip (s : str) : str := rev (lstrip (rev s)).

(** [s.strip()]. *)
Definition strip (s : str) : str := rstrip (lstrip s).

(** [s.startswith(p)]. *)
Fixpoint startswith (p s : str) : bool :=
  match p, s with
  | [], _ => true
  | _ :: _, [] => false
  | a :: p', b :: s' => (a =? b)%N && startswith p' s'
  end.

(** [sub in s]: [sub] occurs in [s] as a contiguous substring. *)
Fixpoint contains (sub s : str) : bool :=
  startswith sub s
  || match s with
     | [] => false
     | _ :: s' => contains sub s'
     end.

(** [s.replace(old, new)] scans [s] from the left and replaces every
    occurrence of [old] that does not overlap an earlier replaced one.
    [skip] counts the characters of a matched occurrence still to be
    passed over. *)
Fixpoint replace_from (old new : str) (skip : nat) (s : str) : str :=
  match s with
  | [] => []
  | c :: s' =>
      match skip with
      | S k => replace_from old new k s'
      | O =>
          if startswith old s
          then new ++ replace_from old new (List.length old - 1) s'
          else c :: replace_from old new 0 s'
      end
  end.

Definition replace (old new s : str) : str :=
  match old with
  | [] => new ++ flat_map (fun c => c :: new) s
  | _ :: _ => replace_from old new 0 s
  end.

(** Truth value of a [str]: the empty string is false. *)
Definition nonempty (s : str) : bool :=
  match s with [] => false | _ :: _ => true end.

End PyStr.
Import PyStr.

(** ** The newline-collapsing loop (src/tools.py, lines 36-37) *)

Definition nlnl : str := [nl; nl].

(** One iteration of the loop body: [content = content.replace("\n\n", "\n")]. *)
Definition collapse_once (content : str) : str := replace nlnl [nl] content.

Lemma replace_nlnl_nil : collapse_once [] = [].
Proof. reflexivity. Qed.

Lemma replace_nlnl_one c : collapse_once [c] = [c].
Proof.
  unfold collapse_once, replace, nlnl. simpl.
  rewrite andb_false_r. reflexivity.
Qed.

Lemma replace_nlnl_hit s : collapse_once (nl :: nl :: s) = nl :: collapse_once s.
Proof. reflexivity. Qed.

Lemma replace_nlnl_miss a b s :
  (a =? nl)%N && (b =? nl)%N = false ->
  collapse_once (a :: b :: s) = a :: collapse_once (b :: s).
Proof.
  intros H. unfold collapse_once, replace, nlnl.
  cbn [replace_from startswith].
  rewrite (N.eqb_sym nl a), (N.eqb_sym nl b), andb_true_r, H.
  reflexivity.
Qed.

(** Induction over a string two characters at a time, as the scan of
    [replace] for a pattern of length two proceeds. *)
Lemma str_ind2 (P : str -> Prop) :
  P [] -> (forall a, P [a]) ->
  (forall a b s, P s -> P (b :: s) -> P (a :: b :: s)) ->
  forall s, P s.
Proof.
  intros Hnil Hone Hstep.
  assert (H : forall s, P s /\ forall a, P (a :: s)).
  { induction s as [|b s [IH1 IH2]]; split; auto. }
  intros s. apply H.
Qed.

Lemma is_nlnl_cases a b :
  (a =? nl)%N && (b =? nl)%N = true /\ a = nl /\ b = nl
  \/ (a =? nl)%N && (b =? nl)%N = false.
Proof.
  destruct (N.eqb_spec a nl) as [->|]; destruct (N.eqb_spec b nl) as [->|];
    simpl; auto.
Qed.

Lemma contains_nlnl_cons2 a b s :
  contains nlnl (a :: b :: s) =
  (a =? nl)%N && (b =? nl)%N || contains nlnl (b :: s).
Proof.
  unfold nlnl. cbn [contains startswith].
  rewrite (N.eqb_sym nl a), (N.eqb_sym nl b), andb_true_r. reflexivity.
Qed.

Lemma contains_nlnl_one a : contains nlnl [a] = false.
Proof.
  unfold nlnl. cbn. rewrite andb_false_r. reflexivity.
Qed.

Lemma collapse_once_length_le s :
  List.length (collapse_once s) <= List.length s.
Proof.
  induction s as [|a|a b s IH1 IH2] using str_ind2.
  - reflexivity.
  - rewrite replace_nlnl_one. reflexivity.
  - destruct (is_nlnl_cases a b) as [(_ & -> & ->)|H].
    + rewrite replace_nlnl_hit. simpl. lia.
    + rewrite (replace_nlnl_miss a b s H). simpl in *. lia.
Qed.

Lemma collapse_once_length_lt s :
  contains nlnl s = true ->
  List.length (collapse_once s) < List.length s.
Proof.
  induction s as [|a|a b s IH1 IH2] using str_ind2.
  - discriminate.
  - rewrite contains_nlnl_one. discriminate.
  - rewrite contains_nlnl_cons2.
    destruct (is_nlnl_cases a b) as [(_ & -> & ->)|H].
    + intros _. rewrite replace_nlnl_hit.
      pose proof (collapse_once_length_le s). simpl. lia.
    + rewrite H, (replace_nlnl_miss a b s H). simpl. intros Hc.
      specialize (IH2 Hc). simpl in IH2. lia.
Qed.

Lemma collapse_once_fixed s :
  contains nlnl s = false -> collapse_once s = s.
Proof.
  induction s as [|a|a b s IH1 IH2] using str_ind2.
  - reflexivity.
  - intros _. apply replace_nlnl_one.
  - rewrite contains_nlnl_cons2.
    destruct (is_nlnl_cases a b) as [(H & _)|H]; rewrite H.
    + discriminate.
    + simpl. intros Hc. rewrite (replace_nlnl_miss a b s H), (IH2 Hc).
      reflexivity.
Qed.

(** The loop
    [while "\n\n" in content: content = content.replace("\n\n", "\n")]
    as a function of the value of [content] on entry. Every iteration
    shortens [content], which is the measure of the recursion. *)
Equations? collapse_newlines (content : str) : str
  by wf (List.length content) lt :=
  collapse_newlines content with inspect (contains nlnl content) := {
    | exist _ true Hin => collapse_newlines (collapse_once content);
    | exist _ false _ => content }.
Proof. apply collapse_once_length_lt. exact Hin. Qed.

(** ** Calls that may raise, and the calls made to the outside *)

(** An exception. [is_Exception e] tells whether [e] is an instance of the
    class [Exception], the instances of which [except Exception] catches;
    it is false for [KeyboardInterrupt], [SystemExit] and [GeneratorExit],
    which derive from [BaseException] only. [message e] is [str(e)]. *)
Record exn := { is_Exception : bool; message : str }.

(** An instance of [Exception], of text [msg]. *)
Definition Exception (msg : str) : exn :=
  {| is_Exception := true; message := msg |}.

(** [KeyboardInterrupt()], raised when the user interrupts the process. *)
Definition KeyboardInterrupt : exn :=
  {| is_Exception := false; message := [] |}.

Inductive outcome (A : Type) : Type :=
| Return (a : A)
| Raise (e : exn).
Arguments Return {A} a.
Arguments Raise {A} e.

(** The calls the tool makes to the operating system and to pypdf. *)
Inductive call :=
| Call_exists (path : str)          (* os.path.exists(path) *)
| Call_PdfReader (path : str)       (* PdfReader(path) *)
| Call_extract_text (index : nat).  (* extract_text() of the page at [index] *)

(** A computation: the calls it made, in order, and how it ended. *)
Definition M (A : Type) : Type := (list call * outcome A)%type.

Definition calls {A} (m : M A) : list call := fst m.
Definition value {A} (m : M A) : outcome A := snd m.

Definition ret {A} (a : A) : M A := ([], Return a).

Definition bind {A B} (m : M A) (k : A -> M B) : M B :=
  match m with
  | (t, Return a) => (t ++ calls (k a), value (k a))
  | (t, Raise e) => (t, Raise e)
  end.

(** [try: body / except Exception as e: handler e]. An exception that is
    not an instance of [Exception] is not caught: it leaves the statement
    as it came. *)
Definition try_except {A} (body : M A) (handler : exn -> M A) : M A :=
  match body with
  | (t, Return a) => (t, Return a)
  | (t, Raise e) =>
      if is_Exception e then (t ++ calls (handler e), value (handler e))
      else (t, Raise e)
  end.

Declare Scope py_scope.
Delimit Scope py_scope with py.
Notation "x <- m ;; k" := (bind m (fun x => k))
  (at level 61, m at next level, right associativity) : py_scope.
Open Scope py_scope.

(** ** The environment: the file system and pypdf *)

(** A page of an opened document: what [page.extract_text()] does. *)
Record Page := { extract_text_of : outcome (option str) }.

(** An opened document: [reader.pages]. Fetching a page and extracting its
    text are one step of the model, as nothing happens between them. *)
Record Reader := { pages : list Page }.

Record Env := {
  path_exists : str -> bool;          (* the answer of os.path.exists *)
  open_pdf : str -> outcome Reader    (* how PdfReader(path) ends *)
}.

Definition os_path_exists (env : Env) (path : str) : M bool :=
  ([Call_exists path], Return (path_exists env path)).

Definition PdfReader (env : Env) (path : str) : M Reader :=
  ([Call_PdfReader path], open_pdf env path).

Definition extract_text (index : nat) (page : Page) : M (option str) :=
  ([Call_extract_text index], extract_text_of page).

(** ** The tool (src/tools.py, lines 23-48) *)

(** [enumerate(l, start)] and [enumerate(l)], which counts from 0. *)
Fixpoint enumerate_from {A} (start : nat) (l : list A) : list (nat * A) :=
  match l with
  | [] => []
  | x :: l' => (start, x) :: enumerate_from (S start) l'
  end.

Definition enumerate {A} (l : list A) : list (nat * A) := enumerate_from 0 l.

(** The text of [f"\n--- Page {page_number + 1} ---\n"]. *)
Definition page_marker (page_number : nat) : str :=
  [nl] ++ lit "--- Page " ++ str_of_nat (page_number + 1) ++ lit " ---" ++ [nl].

(** The body of the [for] loop, lines 32-40, from the value of
    [full_report] before the iteration to its value after it. *)
Definition loop_body (page_number : nat) (page : Page) (full_report : str)
  : M str :=
  content <- extract_text page_number page ;;
  match content with
  | Some ((_ :: _) as content) =>
      let content := collapse_newlines content in
      let full_report := full_report ++ page_marker page_number in
      ret (full_report ++ (strip content ++ [nl]))
  | Some [] | None => ret full_report
  end.

(** [for page_number, page in items: ...], lines 31-40. *)
Fixpoint for_pages (items : list (nat * Page)) (full_report : str) : M str :=
  match items with
  | [] => ret full_report
  | (page_number, page) :: rest =>
      full_report <- loop_body page_number page full_report ;;
      for_pages rest full_report
  end.

(** The body of the [try] statement, lines 24-45. *)
Definition read_data_tool_try (env : Env) (path : str) : M str :=
  found <- os_path_exists env path ;;
  if negb found then ret (lit "Error: File not found at " ++ path)
  else
    reader <- PdfReader env path ;;
    full_report <- for_pages (enumerate (pages reader)) [] ;;
    if negb (nonempty (strip full_report))
    then ret (lit "Warning: No readable text found in the PDF.")
    else ret full_report.

(** [read_data_tool(path)]. *)
Definition read_data_tool (env : Env) (path : str) : M str :=
  try_except (read_data_tool_try env path)
    (fun e => ret (lit "Error reading PDF: " ++ message e)).

(** ** The report as the specification describes it *)

(** Every run of two or more consecutive newlines collapsed to a single
    newline, in one pass: a newline directly followed by another newline
    is dropped, every other character is kept. *)
Fixpoint collapse_runs (s : str) : str :=
  match s with
  | [] => []
  | a :: s' =>
      match s' with
      | b :: _ =>
          if (a =? nl)%N && (b =? nl)%N then collapse_runs s'
          else a :: collapse_runs s'
      | [] => [a]
      end
  end.

(** What [collapse_runs] does with one more character in front. *)
Definition push (a : char) (y : str) : str :=
  match y with
  | b :: _ => if (a =? nl)%N && (b =? nl)%N then y else a :: y
  | [] => [a]
  end.

(** The non-empty text a page yields, if it yields one. *)
Definition page_text (page : Page) : option str :=
  match extract_text_of page with
  | Return (Some ((_ :: _) as content)) => Some content
  | _ => None
  end.

(** [page.extract_text()] returns, whatever it returns. *)
Definition returns (page : Page) : Prop :=
  exists content, extract_text_of page = Return content.

(** The pages that have non-empty text, with their indices, in order. *)
Fixpoint contributing (items : list (nat * Page)) : list (nat * str) :=
  match items with
  | [] => []
  | (page_number, page) :: rest =>
      match page_text page with
      | Some content => (page_number, content) :: contributing rest
      | None => contributing rest
      end
  end.

(** The block of a page of index [page_number] and text [content]: the
    marker line, the collapsed and trimmed text, a newline. *)
Definition block (item : nat * str) : str :=
  page_marker (fst item) ++ strip (collapse_runs (snd item)) ++ [nl].

(** The three literal messages. *)
Definition not_found (path : str) : str := lit "Error: File not found at " ++ path.
Definition read_error (e : exn) : str := lit "Error reading PDF: " ++ message e.
Definition no_text : str := lit "Warning: No readable text found in the PDF.".

(** How the tool ends when its body raises [e]: the handler of line 47
    turns an instance of [Exception] into the read-error message, and any
    other exception goes on to the caller. *)
Definition caught (e : exn) : outcome str :=
  if is_Exception e then Return (read_error e) else Raise e.

(** [s] with some newlines deleted, each of them a newline that had
    another newline right after it; every other character stays where it
    is. *)
Inductive newlines_deleted : str -> str -> Prop :=
| nd_nil : newlines_deleted [] []
| nd_keep c s t : newlines_deleted s t -> newlines_deleted (c :: s) (c :: t)
| nd_drop s t :
    newlines_deleted (nl :: s) t -> newlines_deleted (nl :: nl :: s) t.

(** The value of [content] after [n] iterations of the loop body. *)
Definition after_iterations (n : nat) (content : str) : str :=
  Nat.iter n collapse_once content.

(** *** Sample documents *)

Definition text_page (s : str) : Page := {| extract_text_of := Return (Some s) |}.
Definition blank_page : Page := {| extract_text_of := Return None |}.
Definition broken_page (msg : str) : Page :=
  {| extract_text_of := Raise (Exception msg) |}.

(** An environment with one document, at [path]. *)
Definition single_file (path : str) (doc : outcome Reader) : Env :=
  {| path_exists := fun p => if list_eq_dec N.eq_dec p path then true else false;
     open_pdf := fun _ => doc |}.

Definition sample_path : str := lit "report.pdf".
Definition other_path : str := lit "missing.pdf".

Definition three_pages : Reader :=
  {| pages := [text_page (lit "Revenue" ++ [nl; nl; nl] ++ lit "Growth");
               blank_page;
               text_page (lit "  Outlook ")] |}.

(** A document whose second page is being read when the user interrupts. *)
Definition interrupted_pages : Reader :=
  {| pages := [text_page (lit "Revenue");
               {| extract_text_of := Raise KeyboardInterrupt |}] |}.

Definition failing_pages : Reader :=
  {| pages := [text_page (lit "Revenue"); broken_page (lit "bad xref");
               text_page (lit "Growth")] |}.

(** * Sample evaluations *)

(** [replace] on the patterns of the Python documentation: occurrences are
    taken from the left and do not overlap. *)
Example replace_overlapping :
  replace (lit "aa") (lit "b") (lit "aaaaa") = lit "bba".
Proof. reflexivity. Qed.

Example replace_empty_pattern : replace [] (lit "-") (lit "ab") = lit "-a-b-".
Proof. reflexivity. Qed.

(** Five newlines take three iterations: 5, 3, 2, 1. *)
Example five_newlines :
  map (fun k => after_iterations k (lit "a" ++ [nl; nl; nl; nl; nl] ++ lit "b"))
    [1; 2; 3]
  = [lit "a" ++ [nl; nl; nl] ++ lit "b";
     lit "a" ++ [nl; nl] ++ lit "b";
     lit "a" ++ [nl] ++ lit "b"]
  /\ collapse_newlines (lit "a" ++ [nl; nl; nl; nl; nl] ++ lit "b")
     = lit "a" ++ [nl] ++ lit "b".
Proof. split; reflexivity. Qed.

Example strip_both_ends :
  strip ([nl; 32%N] ++ lit "a b" ++ [9%N; 160%N; nl]) = lit "a b".
Proof. reflexivity. Qed.

(** The second testable property of the specification. *)
Example revenue_growth :
  value (read_data_tool
           (single_file (lit "r.pdf")
              (Return {| pages := [text_page (lit "Revenue" ++ [nl; nl; nl] ++ lit "Growth")] |}))
           (lit "r.pdf"))
  = Return ([nl] ++ lit "--- Page 1 ---" ++ [nl] ++ lit "Revenue" ++ [nl] ++ lit "Growth" ++ [nl]).
Proof. vm_compute. reflexivity. Qed.

(** A page that raises ends the call: the pages after it are not read. *)
Example calls_until_failure :
  calls (read_data_tool (single_file sample_path (Return failing_pages))
           sample_path)
  = [Call_exists sample_path; Call_PdfReader sample_path;
     Call_extract_text 0; Call_extract_text 1].
Proof. reflexivity. Qed.

(** * Properties of strings *)

Lemma startswith_spec p s :
  startswith p s = true <-> exists l, s = p ++ l.
Proof.
  revert s. induction p as [|a p IH]; intros s; simpl.
  - split; [intros _; exists s; reflexivity | reflexivity].
  - destruct s as [|b s].
    + split; [discriminate | intros [l H]; discriminate].
    + rewrite andb_true_iff, N.eqb_eq, IH. split.
      * intros [-> [l ->]]. exists l. reflexivity.
      * intros [l H]. injection H as -> ->. split; [reflexivity | eauto].
Qed.

Lemma contains_spec sub s :
  contains sub s = true <-> exists l1 l2, s = l1 ++ sub ++ l2.
Proof.
  induction s as [|a s IH].
  - simpl. rewrite orb_false_r, startswith_spec. split.
    + intros [l H]. exists [], l. exact H.
    + intros (l1 & l2 & H). destruct l1; [|discriminate]. eauto.
  - cbn [contains]. rewrite orb_true_iff, IH, startswith_spec. split.
    + intros [[l H]|(l1 & l2 & H)].
      * exists [], l. exact H.
      * exists (a :: l1), l2. rewrite H. reflexivity.
    + intros (l1 & l2 & H). destruct l1 as [|c l1].
      * left. exists l2. exact H.
      * right. injection H as _ H. eauto.
Qed.

Lemma contains_false_sub sub s l1 l2 :
  contains sub (l1 ++ s ++ l2) = false -> contains sub s = false.
Proof.
  intros H. destruct (contains sub s) eqn:E; [|reflexivity].
  apply contains_spec in E. destruct E as (m1 & m2 & ->).
  assert (C : contains sub (l1 ++ (m1 ++ sub ++ m2) ++ l2) = true).
  { apply contains_spec. exists (l1 ++ m1), (m2 ++ l2).
    rewrite <- !app_assoc. reflexivity. }
  congruence.
Qed.

Lemma lstrip_split s :
  exists pre, s = pre ++ lstrip s /\ forallb isspace pre = true.
Proof.
  induction s as [|c s (pre & Hs & Hpre)]; simpl.
  - exists []. split; reflexivity.
  - destruct (isspace c) eqn:E.
    + exists (c :: pre). simpl. rewrite E, Hpre. split; [congruence | reflexivity].
    + exists []. split; reflexivity.
Qed.

Lemma lstrip_head s c r : lstrip s = c :: r -> isspace c = false.
Proof.
  induction s as [|a s IH]; simpl; [discriminate|].
  destruct (isspace a) eqn:E; [exact IH|].
  intros H. injection H as -> _. exact E.
Qed.

Lemma lstrip_nil_iff s : lstrip s = [] <-> forallb isspace s = true.
Proof.
  induction s as [|a s IH]; simpl; [tauto|].
  destruct (isspace a); simpl; [exact IH|].
  split; discriminate.
Qed.

Lemma strip_split s :
  exists pre post,
    s = pre ++ strip s ++ post
    /\ forallb isspace pre = true /\ forallb isspace post = true.
Proof.
  destruct (lstrip_split s) as (pre & Hs & Hpre).
  destruct (lstrip_split (rev (lstrip s))) as (q & Hq & Hqs).
  exists pre, (rev q). unfold strip, rstrip. split; [|split].
  - rewrite <- rev_app_distr, <- Hq, rev_involutive. exact Hs.
  - exact Hpre.
  - rewrite forallb_forall in *. intros x Hx. apply Hqs, in_rev. exact Hx.
Qed.

Lemma strip_nil_iff s : strip s = [] <-> forallb isspace s = true.
Proof.
  split.
  - intros H. destruct (strip_split s) as (pre & post & Hs & Hpre & Hpost).
    rewrite H in Hs. rewrite Hs. simpl. rewrite forallb_app, Hpre, Hpost.
    reflexivity.
  - intros H. apply lstrip_nil_iff in H. unfold strip. rewrite H. reflexivity.
Qed.

Lemma strip_head s c r : strip s = c :: r -> isspace c = false.
Proof.
  intros H. destruct (lstrip_split (rev (lstrip s))) as (q & Hq & _).
  apply (f_equal (@rev N)) in Hq. rewrite rev_involutive, rev_app_distr in Hq.
  fold (rstrip (lstrip s)) in Hq. fold (strip s) in Hq. rewrite H in Hq.
  simpl in Hq. apply (lstrip_head _ _ _ Hq).
Qed.

Lemma strip_last s c r : strip s = r ++ [c] -> isspace c = false.
Proof.
  unfold strip, rstrip. intros H.
  apply (f_equal (@rev N)) in H. rewrite rev_involutive, rev_app_distr in H.
  simpl in H. apply (lstrip_head _ _ _ H).
Qed.

(** * Properties of the newline-collapsing loop *)

Lemma collapse_runs_cons2 a b t :
  collapse_runs (a :: b :: t) =
  if (a =? nl)%N && (b =? nl)%N then collapse_runs (b :: t)
  else a :: collapse_runs (b :: t).
Proof. reflexivity. Qed.

Lemma collapse_runs_hd s : hd_error (collapse_runs s) = hd_error s.
Proof.
  induction s as [|a s IH]; [reflexivity|].
  destruct s as [|b t]; [reflexivity|].
  rewrite collapse_runs_cons2.
  destruct (is_nlnl_cases a b) as [(H & -> & ->)|H]; rewrite H.
  - exact IH.
  - reflexivity.
Qed.

Lemma collapse_runs_cons a s : collapse_runs (a :: s) = push a (collapse_runs s).
Proof.
  destruct s as [|b t]; [reflexivity|].
  pose proof (collapse_runs_hd (b :: t)) as Hhd.
  destruct (collapse_runs (b :: t)) as [|b' r] eqn:E; [discriminate|].
  injection Hhd as ->. rewrite collapse_runs_cons2, E. reflexivity.
Qed.

Lemma collapse_runs_once s : collapse_runs (collapse_once s) = collapse_runs s.
Proof.
  induction s as [|a|a b s IH1 IH2] using str_ind2.
  - reflexivity.
  - rewrite replace_nlnl_one. reflexivity.
  - destruct (is_nlnl_cases a b) as [(_ & -> & ->)|H].
    + rewrite replace_nlnl_hit, collapse_runs_cons, IH1, <- collapse_runs_cons.
      reflexivity.
    + rewrite (replace_nlnl_miss a b s H), collapse_runs_cons, IH2,
        <- collapse_runs_cons. reflexivity.
Qed.

Lemma collapse_runs_fixed s : contains nlnl s = false -> collapse_runs s = s.
Proof.
  induction s as [|a s IH]; [reflexivity|].
  destruct s as [|b t]; [reflexivity|].
  rewrite contains_nlnl_cons2, orb_false_iff. intros [H Hc].
  rewrite collapse_runs_cons2, H, (IH Hc). reflexivity.
Qed.

Lemma collapse_runs_free s : contains nlnl (collapse_runs s) = false.
Proof.
  induction s as [|a s IH]; [reflexivity|].
  rewrite collapse_runs_cons. destruct (collapse_runs s) as [|b r] eqn:E.
  - apply contains_nlnl_one.
  - cbn [push]. destruct ((a =? nl)%N && (b =? nl)%N) eqn:H; [exact IH|].
    rewrite contains_nlnl_cons2, H, IH. reflexivity.
Qed.

(** [collapse_runs] by runs: a character other than a newline is kept, and
    a run of newlines, however long, leaves one newline. *)
Lemma collapse_runs_other c s :
  c <> nl -> collapse_runs (c :: s) = c :: collapse_runs s.
Proof.
  intros Hc. destruct s as [|b t]; [reflexivity|].
  rewrite collapse_runs_cons2. apply N.eqb_neq in Hc. rewrite Hc. reflexivity.
Qed.

Lemma collapse_runs_run k s :
  hd_error s <> Some nl ->
  collapse_runs (repeat nl (S k) ++ s) = nl :: collapse_runs s.
Proof.
  intros Hs. induction k as [|k IH].
  - destruct s as [|b t]; [reflexivity|]. cbn [repeat app].
    rewrite collapse_runs_cons2. destruct (N.eqb_spec b nl) as [->|Hb].
    + contradiction Hs. reflexivity.
    + rewrite andb_false_r. reflexivity.
  - change (repeat nl (S (S k)) ++ s) with (nl :: nl :: repeat nl k ++ s).
    rewrite collapse_runs_cons2. exact IH.
Qed.

(** The loop computes the one-pass collapse of the specification. *)
Lemma collapse_newlines_runs s : collapse_newlines s = collapse_runs s.
Proof.
  funelim (collapse_newlines s).
  - match goal with IH : collapse_newlines _ = collapse_runs _ |- _ => rewrite IH end.
    apply collapse_runs_once.
  - symmetry. apply collapse_runs_fixed. assumption.
Qed.

Lemma collapse_newlines_free s : contains nlnl (collapse_newlines s) = false.
Proof. rewrite collapse_newlines_runs. apply collapse_runs_free. Qed.

Lemma collapse_newlines_fixed s :
  contains nlnl s = false -> collapse_newlines s = s.
Proof. rewrite collapse_newlines_runs. apply collapse_runs_fixed. Qed.

Lemma collapse_newlines_step s :
  contains nlnl s = true -> collapse_newlines s = collapse_newlines (collapse_once s).
Proof. intros _. rewrite !collapse_newlines_runs, collapse_runs_once. reflexivity. Qed.

Lemma collapse_runs_forallb (P : char -> bool) s :
  forallb P s = true -> forallb P (collapse_runs s) = true.
Proof.
  induction s as [|a s IH]; [reflexivity|].
  rewrite collapse_runs_cons. simpl. rewrite andb_true_iff. intros [Ha Hs].
  specialize (IH Hs). destruct (collapse_runs s) as [|b r]; simpl.
  - rewrite Ha. reflexivity.
  - destruct ((a =? nl)%N && (b =? nl)%N); simpl; [exact IH|].
    simpl in IH. rewrite Ha, IH. reflexivity.
Qed.

(** * Properties of the tool *)

Lemma value_bind {A B} (m : M A) (k : A -> M B) :
  value (bind m k) =
  match value m with
  | Return a => value (k a)
  | Raise e => Raise e
  end.
Proof. destruct m as [t [a|e]]; reflexivity. Qed.

Lemma calls_bind {A B} (m : M A) (k : A -> M B) :
  calls (bind m k) =
  match value m with
  | Return a => calls m ++ calls (k a)
  | Raise _ => calls m
  end.
Proof. destruct m as [t [a|e]]; reflexivity. Qed.

Lemma value_try_except {A} (body : M A) handler :
  value (try_except body handler) =
  match value body with
  | Return a => Return a
  | Raise e => if is_Exception e then value (handler e) else Raise e
  end.
Proof.
  destruct body as [t [a|e]]; [reflexivity|]. unfold try_except.
  cbn [value snd]. destruct (is_Exception e); reflexivity.
Qed.

(** One iteration: a page that raises ends the loop with its exception; a
    page with non-empty text appends its block; any other page leaves
    [full_report] as it is. *)
Lemma loop_body_value page_number page full_report :
  value (loop_body page_number page full_report) =
  match extract_text_of page with
  | Raise e => Raise e
  | Return _ =>
      Return (match page_text page with
              | Some content => full_report ++ block (page_number, content)
              | None => full_report
              end)
  end.
Proof.
  unfold loop_body. rewrite value_bind. unfold extract_text, page_text.
  cbn [value snd].
  destruct (extract_text_of page) as [[[|c content]|]|e]; try reflexivity.
  unfold ret, block. cbn [value snd fst].
  rewrite collapse_newlines_runs, <- !app_assoc. reflexivity.
Qed.

Lemma for_pages_value items : forall full_report,
  Forall returns (map snd items) ->
  value (for_pages items full_report) =
  Return (full_report ++ flat_map block (contributing items)).
Proof.
  induction items as [|[n page] items IH]; intros r Hall; simpl.
  - rewrite app_nil_r. reflexivity.
  - inversion Hall as [|? ? [content Hpage] Hrest]; subst.
    rewrite value_bind, loop_body_value. simpl in Hpage. rewrite Hpage.
    rewrite (IH _ Hrest). destruct (page_text page); simpl.
    + rewrite <- app_assoc. reflexivity.
    + reflexivity.
Qed.

Lemma for_pages_raise before n page after e : forall full_report,
  Forall returns (map snd before) ->
  extract_text_of page = Raise e ->
  value (for_pages (before ++ (n, page) :: after) full_report) = Raise e.
Proof.
  induction before as [|[m p] before IH]; intros r Hall Hpage; simpl.
  - rewrite value_bind, loop_body_value, Hpage. reflexivity.
  - inversion Hall as [|? ? [content Hp] Hrest]; subst.
    rewrite value_bind, loop_body_value. simpl in Hp. rewrite Hp.
    apply IH; assumption.
Qed.

Lemma map_snd_enumerate_from {A} (l : list A) : forall k,
  map snd (enumerate_from k l) = l.
Proof. induction l as [|x l IH]; intros k; simpl; [|rewrite IH]; reflexivity. Qed.

Lemma enumerate_from_app {A} (l1 l2 : list A) : forall k,
  enumerate_from k (l1 ++ l2) =
  enumerate_from k l1 ++ enumerate_from (k + List.length l1) l2.
Proof.
  induction l1 as [|x l1 IH]; intros k; simpl.
  - rewrite Nat.add_0_r. reflexivity.
  - rewrite IH, Nat.add_succ_r. reflexivity.
Qed.

(** How a call of the tool ends, case by case. *)
Lemma read_data_tool_value env path :
  value (read_data_tool env path) =
  if path_exists env path then
    match open_pdf env path with
    | Raise e => caught e
    | Return reader =>
        match value (for_pages (enumerate (pages reader)) []) with
        | Raise e => caught e
        | Return full_report =>
            Return (if nonempty (strip full_report) then full_report
                    else no_text)
        end
    end
  else Return (not_found path).
Proof.
  unfold read_data_tool, read_data_tool_try, caught.
  rewrite value_try_except, value_bind.
  unfold os_path_exists, PdfReader. cbn [value snd].
  destruct (path_exists env path); cbn [negb]; [|reflexivity].
  rewrite value_bind. cbn [value snd].
  destruct (open_pdf env path) as [reader|e];
    [|destruct (is_Exception e); reflexivity].
  rewrite value_bind.
  destruct (value (for_pages (enumerate (pages reader)) [])) as [r|e];
    [|destruct (is_Exception e); reflexivity].
  destruct (nonempty (strip r)); reflexivity.
Qed.

Lemma for_pages_app l1 l2 : forall full_report,
  value (for_pages (l1 ++ l2) full_report) =
  match value (for_pages l1 full_report) with
  | Return r => value (for_pages l2 r)
  | Raise e => Raise e
  end.
Proof.
  induction l1 as [|[n page] l1 IH]; intros r; simpl; [reflexivity|].
  rewrite !value_bind. destruct (value (loop_body n page r)); [apply IH|reflexivity].
Qed.

Lemma for_pages_returns_inv items : forall full_report r,
  value (for_pages items full_report) = Return r ->
  Forall returns (map snd items).
Proof.
  induction items as [|[n page] items IH]; intros r0 r; simpl; [constructor|].
  rewrite value_bind, loop_body_value.
  destruct (extract_text_of page) as [content|e] eqn:E; [|discriminate].
  intros H. constructor; [exists content; exact E | exact (IH _ _ H)].
Qed.

Lemma contributing_app l1 l2 :
  contributing (l1 ++ l2) = contributing l1 ++ contributing l2.
Proof.
  induction l1 as [|[n page] l1 IH]; simpl; [reflexivity|].
  destruct (page_text page); simpl; rewrite IH; reflexivity.
Qed.

Lemma page_text_Some page content :
  page_text page = Some content <->
  extract_text_of page = Return (Some content) /\ content <> [].
Proof.
  unfold page_text.
  destruct (extract_text_of page) as [[[|c s]|]|e]; split;
    try discriminate; try (intros [H _]; discriminate).
  - intros [H Hne]. injection H as <-. contradiction.
  - intros H. injection H as <-. split; [reflexivity | discriminate].
  - intros [H _]. injection H as <-. reflexivity.
Qed.

Lemma contributing_In l : forall k n content,
  In (n, content) (contributing (enumerate_from k l)) <->
  k <= n /\ exists page,
    nth_error l (n - k) = Some page /\ page_text page = Some content.
Proof.
  induction l as [|page l IH]; intros k n content; simpl.
  - split; [contradiction|]. intros (_ & page & H & _).
    destruct (n - k); discriminate.
  - assert (Hrest : In (n, content) (contributing (enumerate_from (S k) l)) <->
                    S k <= n /\ exists p, nth_error (page :: l) (n - k) = Some p
                                          /\ page_text p = Some content).
    { rewrite IH. split; intros (Hle & p & Hn & Hp); (split; [exact Hle|]);
        exists p; (split; [|exact Hp]).
      - replace (n - k) with (S (n - S k)) by lia. exact Hn.
      - replace (n - k) with (S (n - S k)) in Hn by lia. exact Hn. }
    assert (Hhere : forall p, k = n -> nth_error (page :: l) (n - k) = Some p -> p = page).
    { intros p -> H. rewrite Nat.sub_diag in H. injection H as <-. reflexivity. }
    destruct (page_text page) as [c|] eqn:E; simpl; rewrite Hrest.
    + split.
      * intros [H|(Hle & p & Hn & Hp)].
        -- injection H as <- <-. split; [lia|]. exists page.
           rewrite Nat.sub_diag. split; [reflexivity | exact E].
        -- split; [lia|]. eauto.
      * intros (Hle & p & Hn & Hp). destruct (Nat.eq_dec k n) as [Heq|Hne].
        -- left. rewrite (Hhere p Heq Hn) in Hp. congruence.
        -- right. split; [lia|]. eauto.
    + split.
      * intros (Hle & p & Hn & Hp). split; [lia|]. eauto.
      * intros (Hle & p & Hn & Hp). destruct (Nat.eq_dec k n) as [Heq|Hne].
        -- rewrite (Hhere p Heq Hn) in Hp. congruence.
        -- split; [lia|]. eauto.
Qed.

Lemma contributing_sorted l : forall k,
  StronglySorted lt (map fst (contributing (enumerate_from k l))).
Proof.
  induction l as [|page l IH]; intros k; simpl; [constructor|].
  destruct (page_text page) as [c|]; [|apply IH].
  simpl. constructor; [apply IH|].
  rewrite Forall_forall. intros n Hn. apply in_map_iff in Hn.
  destruct Hn as ([m d] & <- & Hin). apply contributing_In in Hin.
  simpl. lia.
Qed.

(** Every block starts with the newline and the dashes of its marker. *)
Lemma block_shape item : exists rest, block item = nl :: 45%N :: rest.
Proof. eexists. reflexivity. Qed.

Lemma report_shape shown :
  shown <> [] -> exists rest, flat_map block shown = nl :: 45%N :: rest.
Proof.
  destruct shown as [|item shown]; [contradiction|]. intros _.
  destruct (block_shape item) as [rest H]. cbn [flat_map]. rewrite H.
  eexists. reflexivity.
Qed.

Lemma report_not_blank shown :
  shown <> [] -> nonempty (strip (flat_map block shown)) = true.
Proof.
  intros Hne. destruct (report_shape shown Hne) as [rest H].
  destruct (strip (flat_map block shown)) eqn:E; [|reflexivity].
  apply strip_nil_iff in E. rewrite H in E. discriminate.
Qed.

(** The result for a document that opens and whose pages all yield their
    text: the blocks of the pages with text, or the warning. *)
Lemma read_data_tool_report env path reader :
  path_exists env path = true ->
  open_pdf env path = Return reader ->
  Forall returns (pages reader) ->
  value (read_data_tool env path) =
  Return (match contributing (enumerate (pages reader)) with
          | [] => no_text
          | shown => flat_map block shown
          end).
Proof.
  intros Hex Hopen Hall. rewrite read_data_tool_value, Hex, Hopen.
  rewrite for_pages_value
    by (unfold enumerate; rewrite map_snd_enumerate_from; exact Hall).
  simpl app. destruct (contributing (enumerate (pages reader))) as [|it shown] eqn:E.
  - reflexivity.
  - rewrite report_not_blank by discriminate. reflexivity.
Qed.

Lemma collapse_newlines_idem s :
  collapse_newlines (collapse_newlines s) = collapse_newlines s.
Proof. apply collapse_newlines_fixed, collapse_newlines_free. Qed.

(** The pages with text of a document, around one of them. *)
Lemma contributing_split before page after content :
  page_text page = Some content ->
  contributing (enumerate (before ++ page :: after)) =
  contributing (enumerate before)
  ++ (List.length before, content)
     :: contributing (enumerate_from (S (List.length before)) after).
Proof.
  intros H. unfold enumerate.
  rewrite enumerate_from_app, contributing_app. cbn [enumerate_from contributing].
  rewrite H, Nat.add_0_l. reflexivity.
Qed.

Lemma blank_body content :
  forallb isspace content = true -> strip (collapse_runs content) = [].
Proof. intros H. apply strip_nil_iff, collapse_runs_forallb, H. Qed.

Lemma body_free content : contains nlnl (strip (collapse_runs content)) = false.
Proof.
  destruct (strip_split (collapse_runs content)) as (pre & post & H & _).
  apply (contains_false_sub nlnl _ pre post). rewrite <- H.
  apply collapse_runs_free.
Qed.

(** * The claims of the specification *)

(** C1, as the code has it. The handler of the tool catches the
    instances of [Exception]: an exception of that class raised in the
    body, by the opening of the document or by the extraction of the text
    of a page, is turned into "Error reading PDF: " followed by the text
    of the exception. An exception that is not an instance of [Exception]
    leaves the tool as it was raised. So for every path the tool returns a
    string, or raises an exception of its body that is not an instance of
    [Exception]. *)
Theorem read_data_tool_catches_Exception env path :
  ((exists s, value (read_data_tool env path) = Return s)
   \/ (exists e,
         value (read_data_tool env path) = Raise e
         /\ is_Exception e = false
         /\ value (read_data_tool_try env path) = Raise e))
  /\ (forall e,
        value (read_data_tool_try env path) = Raise e ->
        is_Exception e = true ->
        value (read_data_tool env path)
        = Return (lit "Error reading PDF: " ++ message e))
  /\ (forall e,
        path_exists env path = true ->
        open_pdf env path = Raise e ->
        is_Exception e = true ->
        value (read_data_tool env path)
        = Return (lit "Error reading PDF: " ++ message e))
  /\ (forall reader before page after e,
        path_exists env path = true ->
        open_pdf env path = Return reader ->
        pages reader = before ++ page :: after ->
        Forall returns before ->
        extract_text_of page = Raise e ->
        is_Exception e = true ->
        value (read_data_tool env path)
        = Return (lit "Error reading PDF: " ++ message e))
  /\ (forall e,
        value (read_data_tool_try env path) = Raise e ->
        is_Exception e = false ->
        value (read_data_tool env path) = Raise e).
Proof.
  split; [|split; [|split; [|split]]].
  - unfold read_data_tool. rewrite value_try_except.
    destruct (value (read_data_tool_try env path)) as [s|e] eqn:E.
    + left. exists s. reflexivity.
    + destruct (is_Exception e) eqn:Ee.
      * left. eexists. reflexivity.
      * right. exists e. repeat split; reflexivity || exact Ee.
  - intros e H He. unfold read_data_tool.
    rewrite value_try_except, H, He. reflexivity.
  - intros e Hex Hopen He.
    rewrite read_data_tool_value, Hex, Hopen. unfold caught.
    rewrite He. reflexivity.
  - intros reader before page after e Hex Hopen Hpages Hbefore Hpage He.
    rewrite read_data_tool_value, Hex, Hopen, Hpages.
    unfold enumerate. rewrite enumerate_from_app. cbn [enumerate_from].
    rewrite (for_pages_raise _ _ _ _ e);
      [unfold caught; rewrite He; reflexivity| |exact Hpage].
    rewrite map_snd_enumerate_from. exact Hbefore.
  - intros e H He. unfold read_data_tool.
    rewrite value_try_except, H, He. reflexivity.
Qed.

Lemma read_data_tool_catches_Exception_witness :
  value (read_data_tool (single_file sample_path (Return failing_pages))
           sample_path)
  = Return (lit "Error reading PDF: bad xref").
Proof.
  apply (proj1 (proj2 (proj2 (proj2
    (read_data_tool_catches_Exception
       (single_file sample_path (Return failing_pages)) sample_path))))
    failing_pages [text_page (lit "Revenue")] (broken_page (lit "bad xref"))
    [text_page (lit "Growth")]
    (Exception (lit "bad xref"))).
  - reflexivity.
  - reflexivity.
  - reflexivity.
  - constructor; [|constructor]. eexists. reflexivity.
  - reflexivity.
  - reflexivity.
Defined.

(** C1 as the specification states it fails: when the user interrupts the
    extraction of a page, [KeyboardInterrupt] passes the handler, and the
    tool raises instead of returning a string. *)
Lemma read_data_tool_raises_KeyboardInterrupt :
  value (read_data_tool (single_file sample_path (Return interrupted_pages))
           sample_path)
  = Raise KeyboardInterrupt
  /\ ~ (exists s,
          value (read_data_tool
                   (single_file sample_path (Return interrupted_pages))
                   sample_path)
          = Return s).
Proof.
  split; [reflexivity|]. intros [s H]. discriminate H.
Qed.

(** C2. When no file exists at the path, the tool returns exactly
    "Error: File not found at " followed by the path, and its only call
    to the outside is the existence test: the document is not opened. *)
Theorem read_data_tool_not_found env path :
  path_exists env path = false ->
  value (read_data_tool env path)
  = Return (lit "Error: File not found at " ++ path)
  /\ calls (read_data_tool env path) = [Call_exists path].
Proof.
  intros H. unfold read_data_tool, read_data_tool_try, bind, os_path_exists.
  rewrite H. split; reflexivity.
Qed.

Lemma read_data_tool_not_found_witness :
  path_exists (single_file sample_path (Return three_pages)) other_path = false
  /\ value (read_data_tool (single_file sample_path (Return three_pages))
              other_path)
     = Return (lit "Error: File not found at missing.pdf")
  /\ calls (read_data_tool (single_file sample_path (Return three_pages))
              other_path)
     = [Call_exists other_path].
Proof.
  split; [reflexivity|].
  apply (read_data_tool_not_found
           (single_file sample_path (Return three_pages)) other_path).
  reflexivity.
Defined.

(** C6. The loop that replaces "\n\n" by "\n" while one remains
    terminates on every string: after some number [n] of iterations, at
    most the length of the string, the loop test fails for the first time,
    and the string reached, which is what the loop leaves in [content],
    has no two consecutive newlines. *)
Theorem collapse_loop_terminates content :
  exists n,
    n <= List.length content
    /\ (forall k, k < n -> contains nlnl (after_iterations k content) = true)
    /\ contains nlnl (after_iterations n content) = false
    /\ collapse_newlines content = after_iterations n content.
Proof.
  remember (List.length content) as m eqn:Hm.
  assert (Hle : List.length content <= m) by lia. clear Hm.
  revert content Hle. induction m as [|m IH]; intros s Hle.
  - destruct s; [|simpl in Hle; lia]. exists 0. repeat split; try reflexivity.
    intros k Hk. lia.
  - destruct (contains nlnl s) eqn:E.
    + pose proof (collapse_once_length_lt s E) as Hlt.
      destruct (IH (collapse_once s)) as (n & Hn & Hbefore & Hafter & Heq); [lia|].
      exists (S n). unfold after_iterations in *.
      rewrite !Nat.iter_succ_r. repeat split.
      * lia.
      * intros [|k] Hk; [exact E|]. rewrite Nat.iter_succ_r. apply Hbefore. lia.
      * exact Hafter.
      * rewrite (collapse_newlines_step s E). exact Heq.
    + exists 0. repeat split.
      * lia.
      * intros k Hk. lia.
      * exact E.
      * apply collapse_newlines_fixed. exact E.
Qed.

(** C7. On a string with no two consecutive newlines the collapsing step
    changes nothing: neither one replacement nor the whole loop. *)
Theorem collapse_unchanged_when_free content :
  contains nlnl content = false ->
  collapse_once content = content /\ collapse_newlines content = content.
Proof.
  intros H. split.
  - apply collapse_once_fixed. exact H.
  - apply collapse_newlines_fixed. exact H.
Qed.

Lemma collapse_unchanged_when_free_witness :
  contains nlnl (lit "Revenue" ++ [nl] ++ lit "Growth") = false
  /\ collapse_once (lit "Revenue" ++ [nl] ++ lit "Growth")
     = lit "Revenue" ++ [nl] ++ lit "Growth"
  /\ collapse_newlines (lit "Revenue" ++ [nl] ++ lit "Growth")
     = lit "Revenue" ++ [nl] ++ lit "Growth".
Proof.
  split; [reflexivity|].
  apply (collapse_unchanged_when_free (lit "Revenue" ++ [nl] ++ lit "Growth")).
  reflexivity.
Defined.

(** C3. A page with non-empty text appends to the report exactly the line
    "\n--- Page N ---\n", where N counts the pages of the document from 1,
    then its text with every run of newlines collapsed to one newline and
    trimmed of white space at both ends, then a newline. The trimmed text
    has no two consecutive newlines and neither starts nor ends with
    white space. *)
Theorem page_block_appended page content :
  extract_text_of page = Return (Some content) ->
  content <> [] ->
  let body := strip (collapse_runs content) in
  (forall page_number full_report,
     value (loop_body page_number page full_report)
     = Return (full_report
               ++ ([nl] ++ lit "--- Page " ++ str_of_nat (page_number + 1)
                   ++ lit " ---" ++ [nl])
               ++ body ++ [nl]))
  /\ (forall before after,
        Forall returns (before ++ page :: after) ->
        exists pre post,
          value (for_pages (enumerate before) []) = Return pre
          /\ value (for_pages
                      (enumerate_from (S (List.length before)) after) [])
             = Return post
          /\ value (for_pages (enumerate (before ++ page :: after)) [])
             = Return (pre
                       ++ ([nl] ++ lit "--- Page "
                           ++ str_of_nat (List.length before + 1)
                           ++ lit " ---" ++ [nl])
                       ++ body ++ [nl] ++ post))
  /\ collapse_newlines content = collapse_runs content
  /\ contains nlnl body = false
  /\ (forall c rest, body = c :: rest -> isspace c = false)
  /\ (forall c rest, body = rest ++ [c] -> isspace c = false).
Proof.
  intros Hpage Hne body.
  assert (Htext : page_text page = Some content)
    by (apply page_text_Some; split; assumption).
  repeat split.
  - intros n r. rewrite loop_body_value, Hpage, Htext. reflexivity.
  - intros before after Hall.
    exists (flat_map block (contributing (enumerate before))),
      (flat_map block (contributing (enumerate_from (S (List.length before)) after))).
    apply Forall_app in Hall as Hparts. destruct Hparts as [Hb Ha].
    split; [|split].
    + rewrite for_pages_value; [reflexivity|].
      unfold enumerate. rewrite map_snd_enumerate_from. exact Hb.
    + rewrite for_pages_value; [reflexivity|].
      rewrite map_snd_enumerate_from. inversion Ha; assumption.
    + rewrite for_pages_value
        by (unfold enumerate; rewrite map_snd_enumerate_from; exact Hall).
      rewrite (contributing_split before page after content Htext), flat_map_app.
      cbn [flat_map app]. unfold block at 2. cbn [fst snd].
      fold body. unfold page_marker. rewrite <- !app_assoc. reflexivity.
  - apply collapse_newlines_runs.
  - apply body_free.
  - intros c rest. apply strip_head.
  - intros c rest. apply strip_last.
Qed.

Lemma page_block_appended_witness :
  value (loop_body 1
           (text_page (lit "Revenue" ++ [nl; nl; nl] ++ lit "Growth " ++ [nl]))
           [])
  = Return ([nl] ++ lit "--- Page 2 ---" ++ [nl]
            ++ lit "Revenue" ++ [nl] ++ lit "Growth" ++ [nl]).
Proof.
  apply (proj1
    (page_block_appended
       (text_page (lit "Revenue" ++ [nl; nl; nl] ++ lit "Growth " ++ [nl]))
       (lit "Revenue" ++ [nl; nl; nl] ++ lit "Growth " ++ [nl])
       eq_refl ltac:(discriminate))
    1 []).
Defined.

(** C4. When the document opens and the loop over its pages ends with the
    report [full_report]: the report is empty after trimming exactly when
    no page contributed a block; then the tool returns the warning;
    otherwise it returns the report, which begins with the newline that
    opens the marker of its first page. *)
Theorem read_data_tool_warning_or_report env path reader full_report :
  path_exists env path = true ->
  open_pdf env path = Return reader ->
  value (for_pages (enumerate (pages reader)) []) = Return full_report ->
  (strip full_report = [] <-> contributing (enumerate (pages reader)) = [])
  /\ (strip full_report = [] ->
      value (read_data_tool env path)
      = Return (lit "Warning: No readable text found in the PDF."))
  /\ (strip full_report <> [] ->
      value (read_data_tool env path) = Return full_report
      /\ exists page_number content rest,
           hd_error (contributing (enumerate (pages reader)))
           = Some (page_number, content)
           /\ full_report = page_marker page_number ++ rest
           /\ hd_error full_report = Some nl).
Proof.
  intros Hex Hopen Hfor.
  pose proof (for_pages_returns_inv _ _ _ Hfor) as Hall.
  pose proof Hfor as Hrep. rewrite (for_pages_value _ _ Hall) in Hrep.
  injection Hrep as Hrep. cbn [app] in Hrep.
  assert (Hiff : strip full_report = [] <->
                 contributing (enumerate (pages reader)) = []).
  { rewrite <- Hrep. split.
    - intros Hs. destruct (contributing (enumerate (pages reader))) eqn:E;
        [reflexivity|].
      assert (Hn : nonempty (strip (flat_map block (p :: l))) = true)
        by (apply report_not_blank; discriminate).
      rewrite Hs in Hn. discriminate.
    - intros ->. reflexivity. }
  split; [exact Hiff|]. split.
  - intros Hs. rewrite read_data_tool_value, Hex, Hopen, Hfor, Hs. reflexivity.
  - intros Hs. split.
    + rewrite read_data_tool_value, Hex, Hopen, Hfor.
      destruct (strip full_report); [contradiction|reflexivity].
    + destruct (contributing (enumerate (pages reader))) as [|[n c] shown] eqn:E.
      * exfalso. apply Hs, Hiff. reflexivity.
      * exists n, c, ((strip (collapse_runs c) ++ [nl]) ++ flat_map block shown).
        split; [reflexivity|]. rewrite <- Hrep. split; [|reflexivity].
        cbn [flat_map]. unfold block. cbn [fst snd].
        rewrite <- !app_assoc. reflexivity.
Qed.

Lemma read_data_tool_warning_or_report_witness :
  value (read_data_tool
           (single_file sample_path (Return {| pages := [blank_page; text_page []] |}))
           sample_path)
  = Return (lit "Warning: No readable text found in the PDF.").
Proof.
  apply (proj1 (proj2
    (read_data_tool_warning_or_report
       (single_file sample_path (Return {| pages := [blank_page; text_page []] |}))
       sample_path {| pages := [blank_page; text_page []] |} []
       eq_refl eq_refl eq_refl))).
  reflexivity.
Defined.

(** C5. Pages whose text is empty or absent add nothing to the report. For
    a document that opens and whose pages all yield their text, the pages
    that contribute are exactly those with non-empty text, in increasing
    page order, and the result is their blocks, marker first, one after
    the other. *)
Theorem markers_for_pages_with_text env path reader :
  path_exists env path = true ->
  open_pdf env path = Return reader ->
  Forall returns (pages reader) ->
  let shown := contributing (enumerate (pages reader)) in
  (forall page_number page full_report,
     extract_text_of page = Return None \/ extract_text_of page = Return (Some []) ->
     value (loop_body page_number page full_report) = Return full_report)
  /\ (shown <> [] ->
      value (read_data_tool env path)
      = Return (flat_map
                  (fun item => page_marker (fst item)
                               ++ strip (collapse_runs (snd item)) ++ [nl])
                  shown))
  /\ StronglySorted lt (map fst shown)
  /\ (forall page_number content,
        In (page_number, content) shown <->
        exists page,
          nth_error (pages reader) page_number = Some page
          /\ extract_text_of page = Return (Some content)
          /\ content <> []).
Proof.
  intros Hex Hopen Hall shown. split; [|split; [|split]].
  - intros n page r [H|H]; rewrite loop_body_value; unfold page_text;
      rewrite H; reflexivity.
  - intros Hne. rewrite (read_data_tool_report env path reader Hex Hopen Hall).
    fold shown. destruct shown; [contradiction|reflexivity].
  - apply contributing_sorted.
  - intros n content. unfold shown, enumerate. rewrite contributing_In.
    rewrite Nat.sub_0_r. split.
    + intros (_ & page & Hn & Ht). exists page. split; [exact Hn|].
      apply page_text_Some. exact Ht.
    + intros (page & Hn & Ht). split; [lia|]. exists page.
      split; [exact Hn|]. apply page_text_Some. exact Ht.
Qed.

Lemma markers_for_pages_with_text_witness :
  value (read_data_tool (single_file sample_path (Return three_pages))
           sample_path)
  = Return ([nl] ++ lit "--- Page 1 ---" ++ [nl]
            ++ lit "Revenue" ++ [nl] ++ lit "Growth" ++ [nl]
            ++ [nl] ++ lit "--- Page 3 ---" ++ [nl]
            ++ lit "Outlook" ++ [nl]).
Proof.
  apply (proj1 (proj2
    (markers_for_pages_with_text
       (single_file sample_path (Return three_pages)) sample_path three_pages
       eq_refl eq_refl
       ltac:(repeat constructor; eexists; reflexivity)))).
  discriminate.
Defined.

(** C9. A page whose text is not empty but is white space only is not
    skipped: it appends its marker, an empty trimmed text and a newline.
    The result for a document with such a page, when it opens and its
    pages all yield their text, is the report with that marker, not the
    warning. *)
Theorem whitespace_page_keeps_marker page content :
  extract_text_of page = Return (Some content) ->
  content <> [] ->
  forallb isspace content = true ->
  (forall page_number full_report,
     value (loop_body page_number page full_report)
     = Return (full_report ++ page_marker page_number ++ [] ++ [nl]))
  /\ (forall env path reader before after,
        path_exists env path = true ->
        open_pdf env path = Return reader ->
        pages reader = before ++ page :: after ->
        Forall returns (pages reader) ->
        value (read_data_tool env path)
        <> Return (lit "Warning: No readable text found in the PDF.")
        /\ exists pre post,
             value (read_data_tool env path)
             = Return (pre ++ page_marker (List.length before) ++ [nl] ++ post)).
Proof.
  intros Hpage Hne Hblank.
  assert (Htext : page_text page = Some content)
    by (apply page_text_Some; split; assumption).
  split.
  - intros n r. rewrite loop_body_value, Hpage, Htext. unfold block.
    cbn [fst snd]. rewrite (blank_body content Hblank). reflexivity.
  - intros env path reader before after Hex Hopen Hpages Hall.
    rewrite (read_data_tool_report env path reader Hex Hopen Hall), Hpages.
    rewrite (contributing_split before page after content Htext).
    set (l1 := contributing (enumerate before)).
    set (l2 := contributing (enumerate_from (S (List.length before)) after)).
    assert (Hshape : l1 ++ (List.length before, content) :: l2 <> [])
      by (destruct l1; discriminate).
    destruct (report_shape _ Hshape) as [rest Hrest].
    destruct (l1 ++ (List.length before, content) :: l2) as [|it shown] eqn:E;
      [contradiction|]. rewrite <- E in *. split.
    + rewrite Hrest. discriminate.
    + exists (flat_map block l1), (flat_map block l2).
      rewrite flat_map_app. cbn [flat_map]. unfold block at 2.
      cbn [fst snd]. rewrite (blank_body content Hblank), <- app_assoc.
      reflexivity.
Qed.

Lemma whitespace_page_keeps_marker_witness :
  value (read_data_tool
           (single_file sample_path
              (Return {| pages := [blank_page; text_page [32%N; nl; 9%N]] |}))
           sample_path)
  <> Return (lit "Warning: No readable text found in the PDF.").
Proof.
  apply (proj2
    (whitespace_page_keeps_marker (text_page [32%N; nl; 9%N]) [32%N; nl; 9%N]
       eq_refl ltac:(discriminate) eq_refl)
    (single_file sample_path
       (Return {| pages := [blank_page; text_page [32%N; nl; 9%N]] |}))
    sample_path {| pages := [blank_page; text_page [32%N; nl; 9%N]] |}
    [blank_page] [] eq_refl eq_refl eq_refl
    ltac:(repeat constructor; eexists; reflexivity)).
Defined.

(** C10. Between the blocks of two consecutive contributing pages the
    report has two newlines in a row: the newline that ends the first
    block and the newline that opens the marker of the second. So the
    report of a document with two contributing pages contains "\n\n",
    though no trimmed page text does. *)
Theorem double_newline_between_blocks env path reader l1 p q l2 :
  path_exists env path = true ->
  open_pdf env path = Return reader ->
  Forall returns (pages reader) ->
  contributing (enumerate (pages reader)) = l1 ++ p :: q :: l2 ->
  exists report,
    value (read_data_tool env path) = Return report
    /\ report
       = (flat_map block l1
          ++ page_marker (fst p) ++ strip (collapse_runs (snd p)))
         ++ [nl; nl]
         ++ (lit "--- Page " ++ str_of_nat (fst q + 1) ++ lit " ---" ++ [nl]
             ++ strip (collapse_runs (snd q)) ++ [nl] ++ flat_map block l2)
    /\ contains nlnl report = true
    /\ contains nlnl (strip (collapse_runs (snd p))) = false
    /\ contains nlnl (strip (collapse_runs (snd q))) = false.
Proof.
  intros Hex Hopen Hall Hshown.
  eexists. split; [|split; [reflexivity|split; [|split; apply body_free]]].
  - rewrite (read_data_tool_report env path reader Hex Hopen Hall), Hshown.
    destruct (l1 ++ p :: q :: l2) eqn:E; [destruct l1; discriminate|].
    rewrite <- E. rewrite flat_map_app. cbn [flat_map]. unfold block at 2 3.
    unfold page_marker at 2. rewrite <- !app_assoc. reflexivity.
  - apply contains_spec. eexists _, _. reflexivity.
Qed.

Lemma double_newline_between_blocks_witness :
  exists report,
    value (read_data_tool (single_file sample_path (Return three_pages))
             sample_path) = Return report
    /\ contains nlnl report = true.
Proof.
  destruct (double_newline_between_blocks
    (single_file sample_path (Return three_pages)) sample_path three_pages
    [] (0, lit "Revenue" ++ [nl; nl; nl] ++ lit "Growth") (2, lit "  Outlook ") []
    eq_refl eq_refl ltac:(repeat constructor; eexists; reflexivity) eq_refl)
    as (report & Hv & _ & Hc & _).
  exists report. split; [exact Hv | exact Hc].
Defined.

(** * Further properties of the tool *)

(** ** The calls the tool makes *)

Lemma calls_try_except {A} (body : M A) handler :
  calls (try_except body handler) =
  match value body with
  | Return _ => calls body
  | Raise e => if is_Exception e then calls body ++ calls (handler e)
               else calls body
  end.
Proof.
  destruct body as [t [a|e]]; [reflexivity|]. unfold try_except.
  cbn [value snd]. destruct (is_Exception e); reflexivity.
Qed.

Lemma calls_loop_body page_number page full_report :
  calls (loop_body page_number page full_report)
  = [Call_extract_text page_number].
Proof.
  unfold loop_body. rewrite calls_bind. unfold extract_text.
  cbn [value calls fst snd].
  destruct (extract_text_of page) as [[[|c content]|]|e]; reflexivity.
Qed.

Lemma calls_for_pages_cons page_number page rest full_report :
  calls (for_pages ((page_number, page) :: rest) full_report) =
  Call_extract_text page_number
  :: match value (loop_body page_number page full_report) with
     | Return r => calls (for_pages rest r)
     | Raise _ => []
     end.
Proof.
  cbn [for_pages]. rewrite calls_bind, calls_loop_body.
  destruct (value (loop_body page_number page full_report)); reflexivity.
Qed.

Lemma calls_for_pages_all items : forall full_report,
  Forall returns (map snd items) ->
  calls (for_pages items full_report)
  = map (fun item => Call_extract_text (fst item)) items.
Proof.
  induction items as [|[n page] items IH]; intros r Hall; [reflexivity|].
  inversion Hall as [|? ? [content Hpage] Hrest]; subst.
  rewrite calls_for_pages_cons, loop_body_value. simpl in Hpage.
  rewrite Hpage. cbn [map fst]. rewrite (IH _ Hrest). reflexivity.
Qed.

Lemma calls_for_pages_raise before n page after e : forall full_report,
  Forall returns (map snd before) ->
  extract_text_of page = Raise e ->
  calls (for_pages (before ++ (n, page) :: after) full_report)
  = map (fun item => Call_extract_text (fst item)) (before ++ [(n, page)]).
Proof.
  induction before as [|[m p] before IH]; intros r Hall Hpage.
  - cbn [app]. rewrite calls_for_pages_cons, loop_body_value, Hpage.
    reflexivity.
  - inversion Hall as [|? ? [content Hp] Hrest]; subst.
    cbn [app]. rewrite calls_for_pages_cons, loop_body_value.
    simpl in Hp. rewrite Hp. cbn [map fst]. rewrite (IH _ Hrest Hpage).
    reflexivity.
Qed.

Lemma calls_for_pages_prefix items : forall full_report,
  exists k,
    k <= List.length items
    /\ calls (for_pages items full_report)
       = map (fun item => Call_extract_text (fst item)) (firstn k items).
Proof.
  induction items as [|[n page] items IH]; intros r.
  - exists 0. split; [reflexivity|reflexivity].
  - rewrite calls_for_pages_cons.
    destruct (value (loop_body n page r)) as [r'|e].
    + destruct (IH r') as (k & Hk & Hcalls). exists (S k). split.
      * simpl. lia.
      * cbn [firstn map fst]. rewrite Hcalls. reflexivity.
    + exists 1. split; [simpl; lia|reflexivity].
Qed.

Lemma map_fst_enumerate_from {A} (l : list A) : forall k,
  map fst (enumerate_from k l) = seq k (List.length l).
Proof. induction l as [|x l IH]; intros k; simpl; [|rewrite IH]; reflexivity. Qed.

Lemma length_enumerate_from {A} (l : list A) : forall k,
  List.length (enumerate_from k l) = List.length l.
Proof. induction l as [|x l IH]; intros k; simpl; [|rewrite IH]; reflexivity. Qed.

Lemma firstn_seq_le k : forall start n,
  k <= n -> firstn k (seq start n) = seq start k.
Proof.
  induction k as [|k IH]; intros start n Hk; [reflexivity|].
  destruct n as [|n]; [lia|]. simpl. rewrite IH by lia. reflexivity.
Qed.

Lemma calls_read_data_tool env path :
  calls (read_data_tool env path) =
  Call_exists path
  :: (if path_exists env path then
        Call_PdfReader path
        :: match open_pdf env path with
           | Return reader => calls (for_pages (enumerate (pages reader)) [])
           | Raise _ => []
           end
      else []).
Proof.
  unfold read_data_tool. rewrite calls_try_except.
  assert (Hh : forall e, calls (ret (lit "Error reading PDF: " ++ message e)) = [])
    by reflexivity.
  assert (Hbody : calls (read_data_tool_try env path) =
    Call_exists path
    :: (if path_exists env path then
          Call_PdfReader path
          :: match open_pdf env path with
             | Return reader => calls (for_pages (enumerate (pages reader)) [])
             | Raise _ => []
             end
        else [])).
  { unfold read_data_tool_try. rewrite calls_bind.
    unfold os_path_exists, PdfReader. cbn [value calls fst snd].
    destruct (path_exists env path); cbn [negb]; [|reflexivity].
    rewrite calls_bind. cbn [value calls fst snd].
    destruct (open_pdf env path) as [reader|e]; [|reflexivity].
    rewrite calls_bind.
    destruct (value (for_pages (enumerate (pages reader)) [])) as [r|e];
      [|reflexivity].
    destruct (nonempty (strip r)); cbn [negb]; cbn [ret calls fst];
      rewrite app_nil_r; reflexivity. }
  rewrite Hbody. destruct (value (read_data_tool_try env path)) as [r|e];
    [reflexivity|]. destruct (is_Exception e); [|reflexivity].
  rewrite Hh, app_nil_r. reflexivity.
Qed.

(** X1. When the document opens and every page yields its text, the tool
    tests the path once, opens the document once and reads every page
    exactly once, in document order. *)
Theorem reads_every_page_once env path reader :
  path_exists env path = true ->
  open_pdf env path = Return reader ->
  Forall returns (pages reader) ->
  calls (read_data_tool env path)
  = [Call_exists path; Call_PdfReader path]
    ++ map Call_extract_text (seq 0 (List.length (pages reader))).
Proof.
  intros Hex Hopen Hall. rewrite calls_read_data_tool, Hex, Hopen.
  rewrite calls_for_pages_all
    by (unfold enumerate; rewrite map_snd_enumerate_from; exact Hall).
  unfold enumerate. rewrite <- (map_fst_enumerate_from (pages reader) 0), map_map.
  reflexivity.
Qed.

Lemma reads_every_page_once_witness :
  calls (read_data_tool (single_file sample_path (Return three_pages))
           sample_path)
  = [Call_exists sample_path; Call_PdfReader sample_path;
     Call_extract_text 0; Call_extract_text 1; Call_extract_text 2].
Proof.
  apply (reads_every_page_once
           (single_file sample_path (Return three_pages)) sample_path
           three_pages eq_refl eq_refl).
  repeat constructor; eexists; reflexivity.
Defined.

(** X2. When the extraction of a page raises, the pages before it have been
    read once each, the failing page once, and no page after it is read. *)
Theorem stops_at_first_failure env path reader before page after e :
  path_exists env path = true ->
  open_pdf env path = Return reader ->
  pages reader = before ++ page :: after ->
  Forall returns before ->
  extract_text_of page = Raise e ->
  calls (read_data_tool env path)
  = [Call_exists path; Call_PdfReader path]
    ++ map Call_extract_text (seq 0 (S (List.length before)))
  /\ forall k, List.length before < k ->
       ~ In (Call_extract_text k) (calls (read_data_tool env path)).
Proof.
  intros Hex Hopen Hpages Hbefore Hpage.
  assert (Hcalls : calls (read_data_tool env path)
    = [Call_exists path; Call_PdfReader path]
      ++ map Call_extract_text (seq 0 (S (List.length before)))).
  { rewrite calls_read_data_tool, Hex, Hopen, Hpages. unfold enumerate.
    rewrite enumerate_from_app. cbn [enumerate_from].
    rewrite (calls_for_pages_raise _ _ _ _ e)
      by (rewrite ?map_snd_enumerate_from; assumption).
    rewrite <- (map_map fst Call_extract_text), map_app.
    rewrite map_fst_enumerate_from. cbn [map fst].
    rewrite seq_S. reflexivity. }
  split; [exact Hcalls|]. intros k Hk Hin. rewrite Hcalls in Hin.
  cbn [app] in Hin. destruct Hin as [H|[H|H]]; try discriminate.
  apply in_map_iff in H. destruct H as (j & Hj & Hin).
  injection Hj as ->. apply in_seq in Hin. lia.
Qed.

Lemma stops_at_first_failure_witness :
  calls (read_data_tool (single_file sample_path (Return failing_pages))
           sample_path)
  = [Call_exists sample_path; Call_PdfReader sample_path;
     Call_extract_text 0; Call_extract_text 1].
Proof.
  apply (stops_at_first_failure
           (single_file sample_path (Return failing_pages)) sample_path
           failing_pages [text_page (lit "Revenue")]
           (broken_page (lit "bad xref")) [text_page (lit "Growth")]
           (Exception (lit "bad xref")) eq_refl eq_refl eq_refl).
  - repeat constructor; eexists; reflexivity.
  - reflexivity.
Defined.

(** X3. Whatever the environment, the tool touches only the path it is
    given: it tests it once, opens it at most once and only when the test
    succeeds, and then reads an initial run of the pages, each once and in
    order. *)
Theorem calls_footprint env path :
  exists k,
    k <= match open_pdf env path with
         | Return reader => List.length (pages reader)
         | Raise _ => 0
         end
    /\ calls (read_data_tool env path)
       = Call_exists path
         :: (if path_exists env path
             then Call_PdfReader path :: map Call_extract_text (seq 0 k)
             else []).
Proof.
  rewrite calls_read_data_tool.
  destruct (open_pdf env path) as [reader|e].
  - destruct (calls_for_pages_prefix (enumerate (pages reader)) [])
      as (k & Hk & Hcalls).
    unfold enumerate in *. rewrite length_enumerate_from in Hk.
    exists k. split; [exact Hk|]. rewrite Hcalls.
    rewrite <- (map_map fst Call_extract_text), <- firstn_map.
    rewrite map_fst_enumerate_from, firstn_seq_le by exact Hk.
    reflexivity.
  - exists 0. split; [reflexivity|reflexivity].
Qed.

(** ** How the result tells a report from a message *)

Lemma not_blank_head c rest : isspace c = false -> strip (c :: rest) <> [].
Proof.
  intros Hc H. apply strip_nil_iff in H. simpl in H. rewrite Hc in H.
  discriminate.
Qed.

(** X4. The first character of the result decides what it is: it is a
    newline exactly when the document exists, opens, every page yields its
    text and at least one page has text, that is, when the result is a
    report. The three messages start with a letter. *)
Theorem first_character_decides env path s :
  value (read_data_tool env path) = Return s ->
  hd_error s = Some nl <->
  path_exists env path = true
  /\ exists reader,
       open_pdf env path = Return reader
       /\ Forall returns (pages reader)
       /\ contributing (enumerate (pages reader)) <> [].
Proof.
  rewrite read_data_tool_value. intros H.
  assert (Hcaught : forall e, caught e = Return s -> hd_error s <> Some nl).
  { unfold caught. intros e He. destruct (is_Exception e); [|discriminate].
    injection He as <-. discriminate. }
  destruct (path_exists env path).
  2:{ injection H as <-.
      split; [discriminate | intros [H _]; discriminate]. }
  destruct (open_pdf env path) as [reader|e].
  2:{ split; [intros Hs; destruct (Hcaught e H Hs)
             | intros (_ & r & Hr & _); discriminate]. }
  destruct (value (for_pages (enumerate (pages reader)) [])) as [r|e] eqn:E.
  - injection H as <-.
    pose proof (for_pages_returns_inv _ _ _ E) as Hall.
    rewrite (for_pages_value _ _ Hall) in E. injection E as <-. cbn [app].
    unfold enumerate in Hall. rewrite map_snd_enumerate_from in Hall.
    destruct (contributing (enumerate (pages reader))) as [|it shown] eqn:Es.
    + split; [discriminate|]. intros (_ & r & Hr & _ & Hne).
      injection Hr as <-. contradiction.
    + rewrite report_not_blank by discriminate.
      destruct (report_shape (it :: shown)) as [rest Hrest]; [discriminate|].
      rewrite Hrest. split; [|reflexivity]. intros _. split; [reflexivity|].
      exists reader. rewrite Es. repeat split; [exact Hall | discriminate].
  - split; [intros Hs; destruct (Hcaught e H Hs)|].
    intros (_ & r & Hr & Hall & _). injection Hr as <-.
    rewrite for_pages_value in E
      by (unfold enumerate; rewrite map_snd_enumerate_from; exact Hall).
    discriminate.
Qed.

Lemma first_character_decides_witness :
  hd_error ([nl] ++ lit "--- Page 2 ---" ++ [nl] ++ [nl]) = Some nl <->
  path_exists
    (single_file sample_path
       (Return {| pages := [blank_page; text_page [32%N]] |})) sample_path
  = true
  /\ exists reader,
       Return {| pages := [blank_page; text_page [32%N]] |} = Return reader
       /\ Forall returns (pages reader)
       /\ contributing (enumerate (pages reader)) <> [].
Proof.
  apply (first_character_decides
           (single_file sample_path
              (Return {| pages := [blank_page; text_page [32%N]] |}))
           sample_path).
  reflexivity.
Defined.

(** X5. A result always has visible text: whatever the environment, a
    string the tool returns is not empty and not white space only. *)
Theorem result_never_blank env path s :
  value (read_data_tool env path) = Return s -> strip s <> [].
Proof.
  rewrite read_data_tool_value. intros H.
  assert (Hcaught : forall e, caught e = Return s -> strip s <> []).
  { unfold caught. intros e He. destruct (is_Exception e); [|discriminate].
    injection He as <-. apply not_blank_head. reflexivity. }
  destruct (path_exists env path);
    [|injection H as <-; apply not_blank_head; reflexivity].
  destruct (open_pdf env path) as [reader|e]; [|exact (Hcaught e H)].
  destruct (value (for_pages (enumerate (pages reader)) [])) as [r|e];
    [|exact (Hcaught e H)].
  injection H as <-. destruct (strip r) eqn:E; cbn [nonempty].
  - apply not_blank_head. reflexivity.
  - rewrite E. discriminate.
Qed.

Lemma result_never_blank_witness :
  strip ([nl] ++ lit "--- Page 2 ---" ++ [nl] ++ [nl]) <> [].
Proof.
  apply (result_never_blank
           (single_file sample_path
              (Return {| pages := [blank_page; text_page [32%N]] |}))
           sample_path).
  reflexivity.
Defined.

(** ** How the page loop composes *)

Lemma for_pages_start items : forall full_report,
  value (for_pages items full_report) =
  match value (for_pages items []) with
  | Return r => Return (full_report ++ r)
  | Raise e => Raise e
  end.
Proof.
  induction items as [|[n page] items IH]; intros r; cbn [for_pages].
  - cbn [ret value snd]. rewrite app_nil_r. reflexivity.
  - rewrite !value_bind, !loop_body_value.
    destruct (extract_text_of page) as [content|e]; [|reflexivity].
    destruct (page_text page) as [c|].
    + rewrite (IH (r ++ block (n, c))), (IH ([] ++ block (n, c))).
      destruct (value (for_pages items [])); [|reflexivity].
      rewrite <- app_assoc. reflexivity.
    + rewrite (IH r). destruct (value (for_pages items [])); reflexivity.
Qed.

(** X6. The report of a document is the report of its first pages followed
    by the report of the remaining pages, numbered from where the first
    part stops; a page that raises in either part ends the whole loop with
    that exception. *)
Theorem report_of_parts l1 l2 :
  value (for_pages (enumerate (l1 ++ l2)) []) =
  match value (for_pages (enumerate l1) []) with
  | Return r1 =>
      match value (for_pages (enumerate_from (List.length l1) l2) []) with
      | Return r2 => Return (r1 ++ r2)
      | Raise e => Raise e
      end
  | Raise e => Raise e
  end.
Proof.
  unfold enumerate. rewrite enumerate_from_app, for_pages_app.
  destruct (value (for_pages (enumerate_from 0 l1) [])) as [r1|e];
    [|reflexivity].
  rewrite for_pages_start. reflexivity.
Qed.

(** ** What the cleaning of a page keeps and removes *)

Lemma filter_push (keep : char -> bool) a y :
  keep nl = false -> filter keep (push a y) = filter keep (a :: y).
Proof.
  intros Hnl. destruct y as [|b r]; [reflexivity|]. cbn [push].
  destruct (is_nlnl_cases a b) as [(H & -> & ->)|H]; rewrite H; [|reflexivity].
  cbn [filter]. rewrite Hnl. reflexivity.
Qed.

Lemma length_push a y : List.length (push a y) <= S (List.length y).
Proof.
  destruct y as [|b r]; [reflexivity|]. cbn [push].
  destruct ((a =? nl)%N && (b =? nl)%N); simpl; lia.
Qed.

Lemma collapse_runs_deleted s : newlines_deleted s (collapse_runs s).
Proof.
  induction s as [|a s IH]; [constructor|].
  destruct s as [|b t]; [repeat constructor|].
  rewrite collapse_runs_cons2.
  destruct (is_nlnl_cases a b) as [(H & -> & ->)|H]; rewrite H.
  - apply nd_drop. exact IH.
  - apply nd_keep. exact IH.
Qed.

(** X7. The loop removes newline characters only, and only newlines that
    have another newline right after them: the text it leaves is the page
    text with some such newlines deleted and every other character where
    it was. So the other characters are all kept, in order, and the text
    does not grow. *)
Theorem collapse_deletes_only_newlines content :
  newlines_deleted content (collapse_newlines content)
  /\ filter (fun c => negb (c =? nl)%N) (collapse_newlines content)
     = filter (fun c => negb (c =? nl)%N) content
  /\ List.length (collapse_newlines content) <= List.length content.
Proof.
  rewrite collapse_newlines_runs. split; [apply collapse_runs_deleted|].
  induction content as [|a s [IHf IHl]].
  - split; reflexivity.
  - rewrite collapse_runs_cons. split.
    + rewrite filter_push by reflexivity. cbn [filter]. rewrite IHf.
      reflexivity.
    + pose proof (length_push a (collapse_runs s)). simpl. lia.
Qed.

(** One replacement pass works on both sides of a character that is not a
    newline independently. *)
Lemma collapse_once_app pre x :
  last pre 0%N <> nl ->
  collapse_once (pre ++ x) = collapse_once pre ++ collapse_once x.
Proof.
  induction pre as [|a|a b rest IH1 IH2] using str_ind2; intros Hlast.
  - reflexivity.
  - cbn [last] in Hlast. rewrite replace_nlnl_one. cbn [app].
    destruct x as [|b x']; [apply replace_nlnl_one|].
    apply replace_nlnl_miss. apply N.eqb_neq in Hlast. rewrite Hlast.
    reflexivity.
  - change ((a :: b :: rest) ++ x) with (a :: b :: rest ++ x).
    destruct (is_nlnl_cases a b) as [(_ & -> & ->)|H].
    + rewrite !replace_nlnl_hit. cbn [app]. rewrite IH1; [reflexivity|].
      destruct rest as [|r rest']; [contradiction Hlast; reflexivity|].
      exact Hlast.
    + rewrite (replace_nlnl_miss a b (rest ++ x) H),
        (replace_nlnl_miss a b rest H).
      change (b :: rest ++ x) with ((b :: rest) ++ x).
      rewrite IH2 by exact Hlast. reflexivity.
Qed.

(** X8. One iteration of the loop body halves a run of newlines, rounding
    up, wherever the run is: a run of [k] newlines at the start of the
    text, or after a character that is not a newline, and in front of a
    text that does not start with a newline, becomes a run of [ceil(k/2)].
    So a single pass does not normalise a run of three or more. *)
Theorem one_pass_halves_runs k s :
  hd_error s <> Some nl ->
  collapse_once (repeat nl k ++ s)
  = repeat nl (Nat.div2 (S k)) ++ collapse_once s
  /\ forall pre c,
       c <> nl ->
       collapse_once ((pre ++ [c]) ++ repeat nl k ++ s)
       = collapse_once (pre ++ [c])
         ++ repeat nl (Nat.div2 (S k)) ++ collapse_once s.
Proof.
  intros Hs.
  assert (H : forall j,
    collapse_once (repeat nl j ++ s)
    = repeat nl (Nat.div2 (S j)) ++ collapse_once s
    /\ collapse_once (repeat nl (S j) ++ s)
       = repeat nl (Nat.div2 (S (S j))) ++ collapse_once s).
  { induction j as [|j [IH1 IH2]].
    - split; [reflexivity|]. cbn [repeat app Nat.div2].
      destruct s as [|b t]; [apply replace_nlnl_one|].
      rewrite replace_nlnl_miss; [reflexivity|].
      destruct (N.eqb_spec b nl) as [->|Hb]; [|apply andb_false_r].
      contradiction Hs. reflexivity.
    - split; [exact IH2|].
      change (repeat nl (S (S j)) ++ s) with (nl :: nl :: repeat nl j ++ s).
      rewrite replace_nlnl_hit, IH1. reflexivity. }
  split; [apply (H k)|]. intros pre c Hc.
  rewrite collapse_once_app by (rewrite last_last; exact Hc).
  rewrite (proj1 (H k)). reflexivity.
Qed.

Lemma one_pass_halves_runs_witness :
  collapse_once (lit "a" ++ [nl; nl] ++ lit "x" ++ repeat nl 5 ++ lit "b")
  = lit "a" ++ [nl] ++ lit "x" ++ repeat nl 3 ++ lit "b".
Proof.
  apply (proj2 (one_pass_halves_runs 5 (lit "b") ltac:(discriminate))
           (lit "a" ++ [nl; nl]) 120%N).
  discriminate.
Defined.

Lemma lstrip_fixed s :
  (forall c rest, s = c :: rest -> isspace c = false) -> lstrip s = s.
Proof.
  destruct s as [|c rest]; [reflexivity|]. intros H. simpl.
  rewrite (H c rest eq_refl). reflexivity.
Qed.

Lemma strip_idem s : strip (strip s) = strip s.
Proof.
  unfold strip at 1. rewrite lstrip_fixed by (intros c rest; apply strip_head).
  unfold rstrip. rewrite lstrip_fixed; [apply rev_involutive|].
  intros c rest H. apply (strip_last s c (rev rest)).
  rewrite <- (rev_involutive (strip s)), H. reflexivity.
Qed.

(** X9. Cleaning a page text is idempotent: collapsing and trimming the
    text that collapsing and trimming produced changes nothing. *)
Theorem cleaning_idempotent content :
  strip (collapse_newlines (strip (collapse_newlines content)))
  = strip (collapse_newlines content).
Proof.
  rewrite (collapse_newlines_fixed (strip (collapse_newlines content))).
  - apply strip_idem.
  - rewrite collapse_newlines_runs. apply body_free.
Qed.

Lemma collapse_runs_forallb_inv (P : char -> bool) s :
  P nl = true -> forallb P (collapse_runs s) = true -> forallb P s = true.
Proof.
  intros Hnl. induction s as [|a s IH]; [reflexivity|].
  rewrite collapse_runs_cons. destruct (collapse_runs s) as [|b r] eqn:E.
  - cbn [push forallb]. intros H. rewrite andb_true_r in H.
    rewrite H, IH by reflexivity. reflexivity.
  - cbn [push]. destruct (is_nlnl_cases a b) as [(H & -> & _)|H]; rewrite H.
    + intros Hy. cbn [forallb]. rewrite Hnl, IH by exact Hy. reflexivity.
    + cbn [forallb]. intros Hy. apply andb_true_iff in Hy as [Ha Hy].
      rewrite Ha, IH by exact Hy. reflexivity.
Qed.

(** X10. The trimmed text of a page is empty exactly when the page text is
    white space only (the empty text included). *)
Theorem body_empty_iff_blank content :
  strip (collapse_newlines content) = [] <-> forallb isspace content = true.
Proof.
  rewrite collapse_newlines_runs, strip_nil_iff. split.
  - apply collapse_runs_forallb_inv. reflexivity.
  - apply collapse_runs_forallb.
Qed.

(** ** Page markers *)

Lemma lit_inj s1 s2 : lit s1 = lit s2 -> s1 = s2.
Proof.
  unfold lit. intros H.
  rewrite <- (string_of_list_ascii_of_string s1),
          <- (string_of_list_ascii_of_string s2).
  f_equal. revert H.
  generalize (list_ascii_of_string s1), (list_ascii_of_string s2).
  induction l as [|a l IH]; intros [|b l']; simpl; try discriminate;
    [reflexivity|].
  intros H. injection H as Hab Hl. f_equal; [|apply IH; exact Hl].
  rewrite <- (ascii_N_embedding a), <- (ascii_N_embedding b), Hab.
  reflexivity.
Qed.

Lemma str_of_nat_inj n m : str_of_nat n = str_of_nat m -> n = m.
Proof.
  unfold str_of_nat. intros H. apply lit_inj in H.
  assert (Hdec : forall k,
    option_map Nat.of_uint
      (NilZero.uint_of_string (NilZero.string_of_uint (Nat.to_uint k)))
    = Some k).
  { intros k. pose proof (DecimalNat.Unsigned.of_to k) as Hk.
    destruct (Nat.to_uint k) eqn:E;
      try (rewrite NilZero.usu by discriminate; simpl; f_equal; exact Hk).
    simpl in Hk. subst k. reflexivity. }
  pose proof (Hdec n) as Hn. rewrite H, Hdec in Hn. injection Hn as ->.
  reflexivity.
Qed.

(** X11. Pages of different index have different markers. *)
Theorem page_marker_injective n m : n <> m -> page_marker n <> page_marker m.
Proof.
  unfold page_marker. intros Hnm H.
  apply app_inv_head, app_inv_head, app_inv_tail in H.
  apply str_of_nat_inj in H. lia.
Qed.

Lemma page_marker_injective_witness : page_marker 0 <> page_marker 10.
Proof. apply (page_marker_injective 0 10). discriminate. Defined.

(** ** Trimming and collapsing commute *)

Lemma push_app a u v :
  u <> [] -> push a (u ++ v) = push a u ++ v.
Proof.
  destruct u as [|b r]; [contradiction|]. intros _. cbn [push app].
  destruct ((a =? nl)%N && (b =? nl)%N); reflexivity.
Qed.

Lemma collapse_runs_nil_inv s : collapse_runs s = [] -> s = [].
Proof.
  intros H. pose proof (collapse_runs_hd s) as Hhd. rewrite H in Hhd.
  destruct s; [reflexivity | discriminate].
Qed.

Lemma collapse_runs_app a b :
  hd_error b <> Some nl ->
  collapse_runs (a ++ b) = collapse_runs a ++ collapse_runs b.
Proof.
  intros Hb. induction a as [|x a IH]; [reflexivity|].
  cbn [app]. rewrite !collapse_runs_cons, IH.
  destruct (collapse_runs a) as [|y r] eqn:E.
  - cbn [app push]. rewrite <- (collapse_runs_hd b) in Hb.
    destruct (collapse_runs b) as [|c t]; [reflexivity|]. cbn [push].
    destruct (N.eqb_spec c nl) as [->|Hc]; [contradiction Hb; reflexivity|].
    rewrite andb_false_r. reflexivity.
  - apply push_app. discriminate.
Qed.

Lemma collapse_runs_snoc a c b :
  c <> nl ->
  collapse_runs ((a ++ [c]) ++ b)
  = collapse_runs (a ++ [c]) ++ collapse_runs b.
Proof.
  intros Hc. rewrite <- app_assoc. cbn [app].
  rewrite (collapse_runs_app a (c :: b)), (collapse_runs_app a [c]),
    (collapse_runs_other c b Hc), <- app_assoc;
    [reflexivity | |]; simpl; congruence.
Qed.

Lemma lstrip_blank_app p s :
  forallb isspace p = true -> lstrip (p ++ s) = lstrip s.
Proof.
  induction p as [|c p IH]; [reflexivity|]. simpl.
  intros H. apply andb_true_iff in H as [Hc Hp]. rewrite Hc. exact (IH Hp).
Qed.

Lemma lstrip_keeps c t q : isspace c = false -> lstrip ((c :: t) ++ q) = (c :: t) ++ q.
Proof. intros Hc. simpl. rewrite Hc. reflexivity. Qed.

(** Trimming a text padded with white space on both sides gives the text
    back, when the text starts and ends with visible characters. *)
Lemma strip_padded p t q :
  forallb isspace p = true -> forallb isspace q = true ->
  t <> [] ->
  (forall c rest, t = c :: rest -> isspace c = false) ->
  (forall c rest, t = rest ++ [c] -> isspace c = false) ->
  strip (p ++ t ++ q) = t.
Proof.
  intros Hp Hq Hne Hhead Hlast. unfold strip, rstrip.
  rewrite (lstrip_blank_app p _ Hp).
  destruct t as [|c rest] eqn:Et; [contradiction|]. rewrite <- Et in *.
  assert (Hkeep : lstrip (t ++ q) = t ++ q).
  { rewrite Et. apply lstrip_keeps. apply (Hhead c rest). exact Et. }
  rewrite Hkeep, rev_app_distr, lstrip_blank_app
    by (rewrite forallb_forall in *; intros x Hx; apply Hq, in_rev; exact Hx).
  rewrite lstrip_fixed; [apply rev_involutive|].
  intros x r Hx. apply (Hlast x (rev r)).
  rewrite <- (rev_involutive t), Hx. reflexivity.
Qed.

(** X12. Trimming and collapsing commute on every page text: the tool
    collapses first and trims after, and trimming first would give the
    same text. *)
Theorem strip_collapse_commute content :
  strip (collapse_newlines content) = collapse_newlines (strip content).
Proof.
  rewrite !collapse_newlines_runs.
  destruct (strip_split content) as (p & q & Hs & Hp & Hq).
  destruct (strip content) as [|c t0] eqn:E.
  - apply strip_nil_iff in E. rewrite (blank_body content E). reflexivity.
  - pose proof (strip_head content c t0 E) as Hc.
    destruct (exists_last (l := c :: t0)) as (t' & d & Ht); [discriminate|].
    assert (Hd : isspace d = false)
      by (apply (strip_last content d t'); congruence).
    assert (Hcnl : c <> nl) by (intros ->; discriminate).
    assert (Hdnl : d <> nl) by (intros ->; discriminate).
    assert (Hhd : hd_error (collapse_runs (c :: t0)) = Some c)
      by (rewrite collapse_runs_hd; reflexivity).
    rewrite Hs at 1.
    rewrite (collapse_runs_app p) by (simpl; congruence).
    rewrite Ht in *. rewrite (collapse_runs_snoc t' d q Hdnl).
    rewrite (collapse_runs_app t' [d]) in * by (simpl; congruence).
    cbn [collapse_runs] in *.
    apply strip_padded.
    + apply collapse_runs_forallb. exact Hp.
    + apply collapse_runs_forallb. exact Hq.
    + destruct (collapse_runs t'); discriminate.
    + intros x r Hx. rewrite Hx in Hhd. injection Hhd as ->. exact Hc.
    + intros x r Hx. apply app_inj_tail in Hx as [_ <-]. exact Hd.
Qed.

(** ** The end of a report *)

(** X13. A report ends with a newline: when the document opens, every page
    yields its text and some page has text, the result is a text followed
    by the newline that closes the block of the last page with text. *)
Theorem report_ends_with_newline env path reader :
  path_exists env path = true ->
  open_pdf env path = Return reader ->
  Forall returns (pages reader) ->
  contributing (enumerate (pages reader)) <> [] ->
  exists before_end,
    value (read_data_tool env path) = Return (before_end ++ [nl]).
Proof.
  intros Hex Hopen Hall Hne.
  rewrite (read_data_tool_report env path reader Hex Hopen Hall).
  destruct (exists_last Hne) as (shown & item & ->).
  exists (flat_map block shown
          ++ page_marker (fst item) ++ strip (collapse_runs (snd item))).
  destruct (shown ++ [item]) eqn:E; [destruct shown; discriminate|].
  rewrite <- E, flat_map_app. cbn [flat_map]. unfold block at 2.
  rewrite app_nil_r, <- !app_assoc. reflexivity.
Qed.

Lemma report_ends_with_newline_witness :
  exists before_end,
    value (read_data_tool (single_file sample_path (Return three_pages))
             sample_path)
    = Return (before_end ++ [nl]).
Proof.
  apply (report_ends_with_newline
           (single_file sample_path (Return three_pages)) sample_path
           three_pages eq_refl eq_refl).
  - repeat constructor; eexists; reflexivity.
  - discriminate.
Defined.
